(** * The tunable-parameter registry of the Clarity engine

    A shallow embedding of [src/tunables.cpp]: the thirty-five global
    [Tunable] objects, the vector [tunables] of pointers to them, and the
    five entry points [outputTunables], [outputTunableJSON],
    [adjustTunable], [readTunable] and [readTunables].

    The C++ code writes to [std::cout], mutates the pointed-to objects and
    calls [calculateReductions]; here these three effects are the three
    fields of an explicit program state, and every entry point is a
    function from states to states. *)

From Stdlib Require Import ZArith QArith String Ascii DecimalString Lia.
From Stdlib Require Import SpecFloat.
From stdpp Require Import base list strings.

Local Open Scope Z_scope.
Local Open Scope string_scope.

(** ** Floating-point numbers *)

(** The C++ type [double]: binary64, with the operations of the standard
    library's reference implementation of IEEE 754 (round to nearest,
    ties to even). *)
Definition prec : Z := 53.
Definition emax : Z := 1024.
Definition double : Type := spec_float.

Definition fmul : double -> double -> double := SFmul prec emax.
Definition fdiv : double -> double -> double := SFdiv prec emax.

Declare Scope double_scope.
Delimit Scope double_scope with double.
Infix "*" := fmul : double_scope.
Infix "/" := fdiv : double_scope.

(** The implicit conversion of an [int] operand in floating arithmetic:
    the nearest [double], which for an [int] is the number itself. *)
Definition real_of_int (n : Z) : double := binary_normalize prec emax n 0 false.

(** The mantissa of the [double]s 1 and -1, whose exponent is -52. *)
Definition one_mantissa : positive := 4503599627370496.

(** A decimal literal of the source, as the compiler reads it: the
    [double] nearest to the decimal fraction.  Numerator and denominator
    of the literals at hand are exact as [double]s, and the division
    rounds their quotient once. *)
Definition double_literal (q : Q) : double :=
  (real_of_int (Qnum q) / real_of_int (Z.pos (Qden q)))%double.

(** [static_cast<int>(x)] on a [double]: the fractional part is
    discarded, that is, rounding is toward zero.  The language leaves the
    conversion of an infinity or a NaN undefined; the model answers 0
    there. *)
Definition static_cast_int (x : double) : Z :=
  match x with
  | S754_finite s m e =>
      let a := Z.shiftl (Z.pos m) e in if s then - a else a
  | _ => 0
  end.

(** The values of the C++ type [int]. *)
Definition is_int (z : Z) : Prop := -2147483648 <= z <= 2147483647.

(** ** The parameter entity *)

(** Modelled from the spec: the declaration of [struct Tunable] lives in
    [globals.h], which is not part of the sources at hand.  The fields are
    the ones [tunables.cpp] reads ([name], [value], [max], [divisor],
    [step]).  The spec describes [value] as a real number; the source
    initialises it from literals such as [1.8] and [0.80], which are of
    type [double], so it is a [double] here.  Every divisor the source
    declares is an integer literal. *)
Record Tunable : Type := mkTunable {
  name : string;
  value : double;
  max : double;
  divisor : Z;
  step : double
}.

(** Modelled from the spec: [Tunable::updateValue] is defined in
    [globals.h].  The spec gives it as: sets [value = newExternalInt /
    divisor], with no bounds check and no other effect. *)
Definition updateValue (t : Tunable) (newValue : Z) : Tunable :=
  {| name := name t;
     value := (real_of_int newValue / real_of_int (divisor t))%double;
     max := max t;
     divisor := divisor t;
     step := step t |}.

(** The expression [static_cast<int>(tunable->value * tunable->divisor)]
    of [outputTunables] and [outputTunableJSON]. *)
Definition externalValue (t : Tunable) : Z :=
  static_cast_int (value t * real_of_int (divisor t))%double.

(** No rounding loss in the scale and unscale pair: dividing [x] by [d]
    and multiplying the quotient by [d], each rounded to [double], gives
    the [double] of [x] back. *)
Definition no_rounding_loss (d x : Z) : Prop :=
  (real_of_int x / real_of_int d * real_of_int d)%double = real_of_int x.

(** [std::to_string] on an [int]: decimal digits, with a leading minus
    sign for a negative number. *)
Definition to_string (n : Z) : string :=
  NilZero.string_of_int (Z.to_int n).

(** ** The program state *)

(** [tunables] is what the vector of pointers designates, in the vector's
    order; [cout] is everything written to the output stream so far;
    [reductions] counts the calls made to [calculateReductions]. *)
Record Engine : Type := mkEngine {
  tunables : list Tunable;
  cout : string;
  reductions : nat
}.

Definition Cmd : Type := Engine -> Engine.

Definition skip : Cmd := fun e => e.

Definition seq (c1 c2 : Cmd) : Cmd := fun e => c2 (c1 e).

(** One [std::cout << s]. *)
Definition put (s : string) : Cmd := fun e =>
  {| tunables := tunables e; cout := cout e +:+ s; reductions := reductions e |}.

(** The recomputation routine is an external collaborator: only the fact
    that it has been called is recorded. *)
Definition calculateReductions : Cmd := fun e =>
  {| tunables := tunables e; cout := cout e; reductions := S (reductions e) |}.

(** [tunable->updateValue(v)] through the [i]-th pointer of the vector. *)
Definition updateValue_at (i : nat) (v : Z) : Cmd := fun e =>
  {| tunables := alter (fun t => updateValue t v) i (tunables e);
     cout := cout e;
     reductions := reductions e |}.

Declare Scope cmd_scope.
Delimit Scope cmd_scope with cmd.
Bind Scope cmd_scope with Cmd.
Notation "c1 ;; c2" := (seq c1 c2)
  (at level 100, c2 at level 200, right associativity) : cmd_scope.
Notation "o << s" := (seq o (put s))
  (at level 50, left associativity) : cmd_scope.

(** The stream itself, before anything is chained onto it. *)
Definition std_cout : Cmd := skip.

(** A range-based [for] over the vector whose body only reads the
    pointed-to object. *)
Fixpoint for_each (ts : list Tunable) (body : Tunable -> Cmd) : Cmd :=
  match ts with
  | [] => skip
  | t :: ts' => (body t ;; for_each ts' body)%cmd
  end.

Definition endl : string := String (ascii_of_nat 10) EmptyString.
Definition quote : string := String (ascii_of_nat 34) EmptyString.

Section Registry.

(** The stream's formatting of a [double] ([operator<<] on the type of
    [value], [max] and [step]) belongs to the C++ library. *)
Variable show_real : double -> string.

(** What the constructor of [globals.h] computes for [max] and [step]
    from its three arguments. *)
Variables ctor_max ctor_step : string -> double -> Z -> double.

(** Modelled from the spec: the constructor [Tunable(name, value,
    divisor)] of [globals.h].  The spec's scenario gives [LMR_Base] the
    internal value 0.80 at divisor 100, which is the literal the
    declaration passes, so the second argument is the internal value,
    written as a decimal literal; [max] and [step] are declared metadata. *)
Definition Tunable_ctor (_name : string) (_value : Q) (_divisor : Z) : Tunable :=
  {| name := _name;
     value := double_literal _value;
     max := ctor_max _name (double_literal _value) _divisor;
     divisor := _divisor;
     step := ctor_step _name (double_literal _value) _divisor |}.

Definition aspBaseDelta := Tunable_ctor "ASP_BaseDelta" 20 1.
Definition aspDeltaMultiplier := Tunable_ctor "ASP_DeltaMultiplier" 1.8 10.
Definition aspDepthCondition := Tunable_ctor "ASP_DepthCondition" 4 1.

Definition rfpDepthCondition := Tunable_ctor "RFP_DepthCondition" 11 1.
Definition rfpMultiplier := Tunable_ctor "RFP_Multiplier" 84 1.

Definition iirDepthCondition := Tunable_ctor "IIR_DepthCondition" 5 1.

Definition fpDepthCondition := Tunable_ctor "FP_DepthCondition" 3 1.
Definition fpBase := Tunable_ctor "FP_Base" 278 1.
Definition fpMultiplier := Tunable_ctor "FP_Multiplier" 67 1.

Definition lmpDepthCondition := Tunable_ctor "LMP_DepthCondition" 8 1.
Definition lmpBase := Tunable_ctor "LMP_Base" 0 1.

Definition sprDepthCondition := Tunable_ctor "SPR_DepthCondition" 3 1.
Definition sprCaptureThreshold := Tunable_ctor "SPR_CaptureThreshold" (-108) (-1).
Definition sprQuietThreshold := Tunable_ctor "SPR_QuietThreshold" (-32) (-1).

Definition nmpDivisor := Tunable_ctor "NMP_Divisor" 196 1.
Definition nmpSubtractor := Tunable_ctor "NMP_Subtractor" 3 1.
Definition nmpDepthCondition := Tunable_ctor "NMP_DepthCondition" 2 1.

Definition hmrDivisor := Tunable_ctor "HMR_Divisor" 8074 1.
Definition cmrDivisor := Tunable_ctor "CMR_Divisor" 3000 1.

Definition lmrBase := Tunable_ctor "LMR_Base" 0.80 100.
Definition lmrMultiplier := Tunable_ctor "LMR_Multiplier" 0.56 100.

Definition hstMaxBonus := Tunable_ctor "HST_MaxBonus" 1892 1.
Definition hstMultiplier := Tunable_ctor "HST_Multiplier" 4 1.
Definition hstAdder := Tunable_ctor "HST_Adder" 121 1.
Definition hstSubtractor := Tunable_ctor "HST_Subtractor" 120 1.

Definition sinDepthCondition := Tunable_ctor "SIN_DepthCondition" 8 1.
Definition sinDepthMargin := Tunable_ctor "SIN_DepthMargin" 3 1.
Definition sinDepthScale := Tunable_ctor "SIN_DepthScale" 24 1.

Definition razDepthMultiplier := Tunable_ctor "RAZ_DepthMultiplier" 395 1.

Definition ntmDepthCondition := Tunable_ctor "NTM_DepthCondition" 8 1.
Definition ntmSubtractor := Tunable_ctor "NTM_Subtractor" 1.53 100.
Definition ntmMultiplier := Tunable_ctor "NTM_Multiplier" 1.39 100.
Definition ntmDefault := Tunable_ctor "NTM_Default" 0.98 100.

Definition hipDepthCondition := Tunable_ctor "HIP_DepthCondition" 4 1.
Definition hipDepthMultiplier := Tunable_ctor "HIP_DepthMultiplier" (-1536) (-1).

(** The vector [tunables] as the source initialises it. *)
Definition tunables_init : list Tunable :=
  [ aspBaseDelta;
    aspDeltaMultiplier;
    aspDepthCondition;
    rfpDepthCondition;
    rfpMultiplier;
    iirDepthCondition;
    fpDepthCondition;
    fpBase;
    fpMultiplier;
    lmpDepthCondition;
    lmpBase;
    sprDepthCondition;
    sprCaptureThreshold;
    sprQuietThreshold;
    nmpDivisor;
    nmpSubtractor;
    nmpDepthCondition;
    hmrDivisor;
    cmrDivisor;
    lmrBase;
    lmrMultiplier;
    hstMaxBonus;
    hstMultiplier;
    hstAdder;
    hstSubtractor;
    sinDepthCondition;
    sinDepthMargin;
    sinDepthScale;
    razDepthMultiplier;
    ntmDepthCondition;
    ntmSubtractor;
    ntmMultiplier;
    ntmDefault;
    hipDepthCondition;
    hipDepthMultiplier ].

(** The state at process start: nothing written, nothing recomputed. *)
Definition startup : Engine :=
  {| tunables := tunables_init; cout := ""; reductions := 0 |}.

(** ** The entry points *)

Definition outputTunables : Cmd := fun e =>
  for_each (tunables e) (fun tunable =>
    std_cout << "option name " << name tunable << " type spin default "
             << to_string (externalValue tunable) << " min " << "0"
             << " max " << show_real (max tunable) << endl)%cmd e.

Definition outputTunableJSON : Cmd := fun e =>
  (std_cout << ("{" +:+ endl) ;;
   for_each (tunables e) (fun tunable =>
     std_cout << ("   " +:+ quote) << name tunable << (quote +:+ ": {" +:+ endl) ;;
     std_cout << ("      " +:+ quote +:+ "value" +:+ quote +:+ ": ")
              << to_string (externalValue tunable) << "," << endl ;;
     std_cout << ("      " +:+ quote +:+ "min_value" +:+ quote +:+ ": ")
              << "0" << "," << endl ;;
     std_cout << ("      " +:+ quote +:+ "max_value" +:+ quote +:+ ": ")
              << show_real (max tunable) << "," << endl ;;
     std_cout << ("      " +:+ quote +:+ "step" +:+ quote +:+ ": ")
              << show_real (step tunable) << endl ;;
     std_cout << ("   }," +:+ endl)) ;;
   std_cout << ("}" +:+ endl))%cmd e.

(** The loop of [adjustTunable], entered at the [i]-th pointer with [ts]
    the objects still to be visited. *)
Fixpoint adjust_from (i : nat) (ts : list Tunable) (nm : string) (v : Z) : Cmd :=
  match ts with
  | [] => (std_cout << ("No Such Tunable" +:+ endl))%cmd
  | tunable :: ts' =>
      if String.eqb (name tunable) nm then
        (updateValue_at i v ;;
         if String.eqb nm "LMR_Base" || String.eqb nm "LMR_Multiplier"
         then calculateReductions else skip)%cmd
      else adjust_from (S i) ts' nm v
  end.

Definition adjustTunable (nm : string) (v : Z) : Cmd := fun e =>
  adjust_from 0 (tunables e) nm v e.

(** The loop of [readTunable]. *)
Fixpoint read_from (ts : list Tunable) (nm : string) : Cmd :=
  match ts with
  | [] => (std_cout << ("No Such Tunable" +:+ endl))%cmd
  | tunable :: ts' =>
      if String.eqb (name tunable) nm then
        (std_cout << "value: " << show_real (value tunable) << endl)%cmd
      else read_from ts' nm
  end.

Definition readTunable (nm : string) : Cmd := fun e =>
  read_from (tunables e) nm e.

Definition readTunables : Cmd := fun e =>
  for_each (tunables e) (fun tunable =>
    std_cout << "name: " << name tunable << endl ;;
    std_cout << "value: " << show_real (value tunable) << endl ;;
    std_cout << "min: " << "0" << endl ;;
    std_cout << "max: " << show_real (max tunable) << endl ;;
    std_cout << "divisor: " << to_string (divisor tunable) << endl ;;
    std_cout << "step: " << show_real (step tunable) << endl)%cmd e.

(** ** Calls and reachable states *)

(** The five entry points as the command loop may invoke them. *)
Inductive Call : Type :=
| CallOutputTunables
| CallOutputTunableJSON
| CallAdjustTunable (nm : string) (v : Z)
| CallReadTunable (nm : string)
| CallReadTunables.

Definition exec (c : Call) : Cmd :=
  match c with
  | CallOutputTunables => outputTunables
  | CallOutputTunableJSON => outputTunableJSON
  | CallAdjustTunable nm v => adjustTunable nm v
  | CallReadTunable nm => readTunable nm
  | CallReadTunables => readTunables
  end.

(** The state after a history of calls. *)
Fixpoint run (cs : list Call) : Cmd :=
  match cs with
  | [] => skip
  | c :: cs' => (exec c ;; run cs')%cmd
  end.

(** ** The report formats, as the interface section of the spec words them *)

Fixpoint join (ls : list string) : string :=
  match ls with
  | [] => ""
  | l :: ls' => l +:+ join ls'
  end.

(** [option name <NAME> type spin default <EXTERNAL_INT> min 0 max <MAX>] *)
Definition option_line (t : Tunable) : string :=
  "option name " +:+ name t +:+ " type spin default "
  +:+ to_string (externalValue t) +:+ " min 0 max " +:+ show_real (max t)
  +:+ endl.

(** The members of one JSON entry, in the order of the document. *)
Definition json_fields (t : Tunable) : list (string * string) :=
  [ ("value", to_string (externalValue t));
    ("min_value", "0");
    ("max_value", show_real (max t));
    ("step", show_real (step t)) ].

Definition json_member (kv : string * string) : string :=
  "      " +:+ quote +:+ fst kv +:+ quote +:+ ": " +:+ snd kv.

(** Members are separated by a comma at the end of the line. *)
Fixpoint json_members (kvs : list (string * string)) : string :=
  match kvs with
  | [] => ""
  | [kv] => json_member kv +:+ endl
  | kv :: kvs' => json_member kv +:+ "," +:+ endl +:+ json_members kvs'
  end.

Definition json_entry (t : Tunable) : string :=
  "   " +:+ quote +:+ name t +:+ quote +:+ ": {" +:+ endl
  +:+ json_members (json_fields t)
  +:+ "   }," +:+ endl.

Definition json_document (ts : list Tunable) : string :=
  "{" +:+ endl +:+ join (map json_entry ts) +:+ "}" +:+ endl.

(** What [readTunables] reports for one parameter. *)
Definition read_block (t : Tunable) : string :=
  "name: " +:+ name t +:+ endl
  +:+ "value: " +:+ show_real (value t) +:+ endl
  +:+ "min: 0" +:+ endl
  +:+ "max: " +:+ show_real (max t) +:+ endl
  +:+ "divisor: " +:+ to_string (divisor t) +:+ endl
  +:+ "step: " +:+ show_real (step t) +:+ endl.

End Registry.

(** The name-keyed lookup of the spec: the first parameter of the
    sequence whose name matches, with its position. *)
Definition lookup (nm : string) (ts : list Tunable) : option (nat * Tunable) :=
  list_find (fun t => name t = nm) ts.

(** The dependent pair. *)
Definition dependent_pair : list string := ["LMR_Base"; "LMR_Multiplier"].

(** What one successful [adjustTunable] does, as one state. *)
Definition adjusted (i : nat) (nm : string) (v : Z) (e : Engine) : Engine :=
  {| tunables := alter (fun t => updateValue t v) i (tunables e);
     cout := cout e;
     reductions :=
       if bool_decide (nm ∈ dependent_pair) then S (reductions e)
       else reductions e |}.

(** Everything of a parameter but its value. *)
Definition metadata (t : Tunable) : string * Z * double * double :=
  (name t, divisor t, max t, step t).

(** ** A concrete instance

    One choice of stream format and of declared metadata, on which the
    model runs to a value. *)

(** A [double] written as sign, mantissa, the letter p and binary
    exponent. *)
Definition show_binary (x : double) : string :=
  match x with
  | S754_zero s => if s then "-0" else "0"
  | S754_infinity s => if s then "-inf" else "inf"
  | S754_nan => "nan"
  | S754_finite s m e =>
      (if s then "-" else "") +:+ to_string (Z.pos m) +:+ "p" +:+ to_string e
  end.

(** Twice the external default as the declared maximum. *)
Definition sample_max (_ : string) (v : double) (d : Z) : double :=
  (v * real_of_int d * real_of_int 2)%double.

Definition sample_step (_ : string) (_ : double) (_ : Z) : double :=
  real_of_int 1.

Definition sample_startup : Engine := startup sample_max sample_step.

(** ** Histories, read call by call *)

(** The argument of the last [adjustTunable] of a history that names
    [nm], if there is one. *)
Fixpoint last_update (nm : string) (cs : list Call) : option Z :=
  match cs with
  | [] => None
  | c :: cs' =>
      match last_update nm cs' with
      | Some v => Some v
      | None =>
          match c with
          | CallAdjustTunable nm' v =>
              if String.eqb nm' nm then Some v else None
          | _ => None
          end
      end
  end.

(** The calls that update a member of the dependent pair. *)
Definition dependent_update (c : Call) : bool :=
  match c with
  | CallAdjustTunable nm _ => bool_decide (nm ∈ dependent_pair)
  | _ => false
  end.

(** The calls that only report. *)
Definition is_report (c : Call) : Prop :=
  match c with
  | CallAdjustTunable _ _ => False
  | _ => True
  end.

(** ** Strings and commands *)

Lemma append_assoc (a b c : string) : (a +:+ b) +:+ c = a +:+ (b +:+ c).
Proof.
  induction a as [|x a IH]; [reflexivity | exact (f_equal (String x) IH)].
Qed.

Lemma append_nil_r (a : string) : a +:+ "" = a.
Proof.
  induction a as [|x a IH]; [reflexivity | exact (f_equal (String x) IH)].
Qed.

Lemma put_nil (e : Engine) : put "" e = e.
Proof. destruct e; unfold put; simpl. now rewrite append_nil_r. Qed.

Lemma put_put (a b : string) (e : Engine) : put b (put a e) = put (a +:+ b) e.
Proof. unfold put; simpl. now rewrite append_assoc. Qed.

Lemma for_each_put (body : Tunable -> Cmd) (text : Tunable -> string) :
  (forall t e, body t e = put (text t) e) ->
  forall ts e, for_each ts body e = put (join (map text ts)) e.
Proof.
  intros Hbody ts. induction ts as [|t ts IH]; intros e; simpl.
  - symmetry. apply put_nil.
  - unfold seq. now rewrite Hbody, IH, put_put.
Qed.

(** Chained writes collapse into one write of the concatenation. *)
Ltac one_write :=
  intros; unfold seq, std_cout, skip; rewrite ?put_put;
  rewrite ?append_assoc; reflexivity.

(** ** Floating arithmetic of the scale and unscale pair *)

Lemma digits2_pos_iter_xO (p n : positive) :
  digits2_pos (Pos.iter xO p n) = (digits2_pos p + n)%positive.
Proof.
  induction n as [|n IH] using Pos.peano_ind.
  - simpl. now rewrite Pos.add_1_r.
  - rewrite Pos.iter_succ. simpl. rewrite IH. lia.
Qed.

Lemma pos_iter_xO (p n : positive) :
  Z.pos (Pos.iter xO p n) = Z.pos p * 2 ^ Z.pos n.
Proof.
  induction n as [|n IH] using Pos.peano_ind.
  - simpl. lia.
  - rewrite Pos.iter_succ, Pos2Z.inj_xO, IH, Pos2Z.inj_succ, Z.pow_succ_r by lia.
    lia.
Qed.

Lemma digits2_pos_bound (p : positive) :
  Z.pos p < 2 ^ Z.pos (digits2_pos p).
Proof.
  induction p as [p IH|p IH|]; simpl digits2_pos;
    rewrite ?Pos2Z.inj_succ, ?Z.pow_succ_r by lia; lia.
Qed.

Lemma digits2_pos_le (p : positive) (n : Z) :
  0 <= n -> Z.pos p < 2 ^ n -> Z.pos (digits2_pos p) <= n.
Proof.
  revert n. induction p as [p IH|p IH|]; intros n Hn Hp; simpl digits2_pos.
  - destruct (Z.eq_dec n 0) as [->|Hne]; [simpl in Hp; lia|].
    replace n with (Z.succ (n - 1)) in Hp by lia.
    rewrite Z.pow_succ_r in Hp by lia.
    specialize (IH (n - 1)). lia.
  - destruct (Z.eq_dec n 0) as [->|Hne]; [simpl in Hp; lia|].
    replace n with (Z.succ (n - 1)) in Hp by lia.
    rewrite Z.pow_succ_r in Hp by lia.
    specialize (IH (n - 1)). lia.
  - destruct (Z.eq_dec n 0) as [->|Hne]; [simpl in Hp; lia|]. lia.
Qed.

(** A mantissa of 53 bits with an exponent in range is already
    rounded. *)
Lemma binary_round_aux_canonical (s : bool) (m : positive) (e : Z) :
  Z.pos (digits2_pos m) = 53 -> -1074 <= e <= 971 ->
  binary_round_aux prec emax s (Z.pos m) e loc_Exact = S754_finite s m e.
Proof.
  intros Hm He. unfold binary_round_aux, shr_fexp, Zdigits2.
  rewrite Hm.
  assert (Hf : fexp prec emax (53 + e) - e = 0)
    by (unfold fexp, emin, prec, emax; lia).
  rewrite Hf. simpl. rewrite Hm, Hf. simpl.
  unfold emax, prec. destruct (Z.leb_spec e (1024 - 53)); [reflexivity|lia].
Qed.

(** An integer of fewer than 53 bits is a [double]: its bits, shifted
    up to fill the mantissa. *)
Lemma binary_round_small (s : bool) (p : positive) :
  Z.pos (digits2_pos p) < 53 ->
  binary_round prec emax s p 0
  = S754_finite s (Pos.iter xO p (Z.to_pos (53 - Z.pos (digits2_pos p))))
                (Z.pos (digits2_pos p) - 53).
Proof.
  intros Hp. unfold binary_round, shl_align.
  assert (Hf : fexp prec emax (Z.pos (digits2_pos p) + 0)
               = Z.pos (digits2_pos p) - 53)
    by (unfold fexp, emin, prec, emax; lia).
  rewrite Hf.
  destruct (Z.pos (digits2_pos p) - 53 - 0) as [|d|d] eqn:Hd; try lia.
  replace (Z.to_pos (53 - Z.pos (digits2_pos p))) with d by lia.
  apply binary_round_aux_canonical; [|lia].
  rewrite digits2_pos_iter_xO. lia.
Qed.


Lemma mul_one_mantissa (m : positive) :
  (m * one_mantissa)%positive = Pos.iter xO m 52.
Proof. apply Pos2Z.inj. rewrite pos_iter_xO, Pos2Z.inj_mul. reflexivity. Qed.

(** Multiplying and dividing a normal [double] by 1 or -1 only sets the
    sign. *)
Lemma fmul_unit (s sy : bool) (m : positive) (e : Z) :
  Z.pos (digits2_pos m) = 53 -> -1074 <= e <= 971 ->
  fmul (S754_finite s m e) (S754_finite sy one_mantissa (-52))
  = S754_finite (xorb s sy) m e.
Proof.
  intros Hm He. unfold fmul, SFmul, binary_round_aux, shr_fexp, Zdigits2.
  rewrite mul_one_mantissa, digits2_pos_iter_xO.
  replace (Z.pos (digits2_pos m + 52)) with 105 by lia.
  assert (Hf : fexp prec emax (105 + (e + -52)) - (e + -52) = 52)
    by (unfold fexp, emin, prec, emax; lia).
  rewrite Hf. cbn -[fexp Z.add Z.sub Z.leb].
  rewrite Hm.
  assert (Hg : fexp prec emax (53 + (e + -52 + 52)) - (e + -52 + 52) = 0)
    by (unfold fexp, emin, prec, emax; lia).
  rewrite Hg. cbn -[Z.add Z.sub Z.leb].
  replace (e + -52 + 52) with e by lia.
  unfold emax, prec. destruct (Z.leb_spec e (1024 - 53)); [reflexivity|lia].
Qed.

Lemma div_eucl_exact (a b q : Z) :
  b <> 0 -> a = q * b -> Z.div_eucl a b = (q, 0).
Proof.
  intros Hb ->.
  pose proof (Z.div_mul q b Hb) as Hq. pose proof (Z.mod_mul q b Hb) as Hr.
  unfold Z.div, Z.modulo in Hq, Hr.
  destruct (Z.div_eucl (q * b) b) as [q' r']. simpl in Hq, Hr. congruence.
Qed.

Lemma fdiv_unit (s sy : bool) (m : positive) (e : Z) :
  Z.pos (digits2_pos m) = 53 -> -1073 <= e <= 971 ->
  fdiv (S754_finite s m e) (S754_finite sy one_mantissa (-52))
  = S754_finite (xorb s sy) m e.
Proof.
  intros Hm He. unfold fdiv, SFdiv, SFdiv_core_binary, Zdigits2.
  rewrite Hm. change (Z.pos (digits2_pos one_mantissa)) with 53.
  assert (He' : Z.min (fexp prec emax (53 + e - (53 + -52))) (e - -52) = e - 1)
    by (unfold fexp, emin, prec, emax; lia).
  rewrite He'.
  replace (e - -52 - (e - 1)) with 53 by lia.
  rewrite (div_eucl_exact _ _ (Z.pos m~0)); [| discriminate |].
  2:{ rewrite Z.shiftl_mul_pow2 by lia. unfold one_mantissa.
      rewrite Pos2Z.inj_xO. change (2 ^ 53) with (2 * 4503599627370496). lia. }
  change (new_location (Z.pos one_mantissa) 0) with loc_Exact.
  unfold binary_round_aux, shr_fexp, Zdigits2.
  simpl digits2_pos. rewrite Pos2Z.inj_succ, Hm.
  assert (Hf : fexp prec emax (Z.succ 53 + (e - 1)) - (e - 1) = 1)
    by (unfold fexp, emin, prec, emax; lia).
  rewrite Hf. cbn -[fexp Z.add Z.sub Z.leb].
  rewrite Hm.
  assert (Hg : fexp prec emax (53 + (e - 1 + 1)) - (e - 1 + 1) = 0)
    by (unfold fexp, emin, prec, emax; lia).
  rewrite Hg. cbn -[Z.add Z.sub Z.leb].
  replace (e - 1 + 1) with e by lia.
  unfold emax, prec. destruct (Z.leb_spec e (1024 - 53)); [reflexivity|lia].
Qed.

Lemma real_of_int_unit (d : Z) :
  d = 1 \/ d = -1 ->
  real_of_int d = S754_finite (d <? 0)%Z one_mantissa (-52).
Proof. intros [->| ->]; reflexivity. Qed.

Lemma real_of_int_shape (x : Z) :
  is_int x -> x <> 0 ->
  exists m e, real_of_int x = S754_finite (x <? 0)%Z m e
              /\ Z.pos (digits2_pos m) = 53 /\ -52 <= e <= 0.
Proof.
  unfold is_int. intros Hx Hne. unfold real_of_int, binary_normalize.
  destruct x as [|p|p]; [lia| |];
    (assert (Hp : Z.pos (digits2_pos p) <= 32) by (apply digits2_pos_le; lia));
    rewrite binary_round_small by lia;
    eexists _, _; (split; [reflexivity|]);
    rewrite digits2_pos_iter_xO; lia.
Qed.

(** At the divisors 1 and -1 no [int] suffers a rounding loss. *)
Lemma unit_divisor_no_rounding_loss (d x : Z) :
  d = 1 \/ d = -1 -> is_int x -> no_rounding_loss d x.
Proof.
  intros Hd Hx. unfold no_rounding_loss. rewrite (real_of_int_unit d Hd).
  destruct (Z.eq_dec x 0) as [->|Hne].
  - now destruct (d <? 0)%Z.
  - destruct (real_of_int_shape x Hx Hne) as (m & e & -> & Hm & He).
    rewrite fdiv_unit, fmul_unit by lia.
    now destruct (x <? 0)%Z, (d <? 0)%Z.
Qed.


(** ** The lookup loops *)

Lemma lookup_cons (nm : string) (t : Tunable) (ts : list Tunable) :
  lookup nm (t :: ts) =
  if String.eqb (name t) nm then Some (0%nat, t)
  else prod_map S id <$> lookup nm ts.
Proof.
  unfold lookup; simpl.
  destruct (String.eqb_spec (name t) nm) as [Heq|Hne].
  - now rewrite decide_True.
  - now rewrite decide_False.
Qed.

Lemma lookup_present (nm : string) (ts : list Tunable) :
  nm ∈ name <$> ts ->
  exists i t, lookup nm ts = Some (i, t) /\ ts !! i = Some t /\ name t = nm.
Proof.
  intros Hin. apply list_elem_of_fmap in Hin as (t & -> & Ht).
  destruct (list_find_elem_of (fun u => name u = name t) ts t Ht eq_refl)
    as [[i u] Hfind].
  exists i, u. split; [exact Hfind|].
  apply list_find_Some in Hfind as (Hi & Hu & _). auto.
Qed.

Lemma lookup_absent (nm : string) (ts : list Tunable) :
  nm ∉ name <$> ts -> lookup nm ts = None.
Proof.
  intros Hnot. apply list_find_None, Forall_forall.
  intros t Ht Heq. apply Hnot. rewrite <- Heq.
  now apply list_elem_of_fmap_2.
Qed.

Lemma filter_absent_name (n : string) (ts : list Tunable) :
  n ∉ name <$> ts -> filter (fun t => name t = n) ts = [].
Proof.
  induction ts as [|t ts IH]; intros Hn; [reflexivity|].
  rewrite fmap_cons, not_elem_of_cons in Hn. destruct Hn as [Hne Hn].
  rewrite filter_cons_False by congruence. now apply IH.
Qed.

(** In a registry without duplicate names the lookup of a parameter's own
    name finds that very parameter. *)
Lemma lookup_own_name (ts : list Tunable) (i : nat) (t : Tunable) :
  NoDup (name <$> ts) -> ts !! i = Some t -> lookup (name t) ts = Some (i, t).
Proof.
  intros Hnd Hi. apply list_find_Some. split; [exact Hi|]. split; [reflexivity|].
  intros j u Hj Hlt Heq.
  assert (i = j); [|lia].
  apply (NoDup_lookup _ _ _ (name t) Hnd); rewrite list_lookup_fmap.
  - now rewrite Hi.
  - now rewrite Hj, <- Heq.
Qed.

Lemma dependent_pair_eqb (nm : string) :
  String.eqb nm "LMR_Base" || String.eqb nm "LMR_Multiplier"
  = bool_decide (nm ∈ dependent_pair).
Proof.
  unfold dependent_pair.
  destruct (String.eqb_spec nm "LMR_Base") as [->|H1]; [reflexivity|].
  destruct (String.eqb_spec nm "LMR_Multiplier") as [->|H2]; [reflexivity|].
  symmetry. apply bool_decide_eq_false.
  rewrite !elem_of_cons, elem_of_nil. tauto.
Qed.

Lemma adjust_from_lookup (ts : list Tunable) (nm : string) (v : Z) :
  forall (i : nat) (e : Engine),
  adjust_from i ts nm v e =
  match lookup nm ts with
  | Some (j, _) => adjusted (i + j) nm v e
  | None => put ("No Such Tunable" +:+ endl) e
  end.
Proof.
  induction ts as [|t ts IH]; intros i e; [reflexivity|].
  rewrite lookup_cons. simpl.
  destruct (String.eqb (name t) nm).
  - rewrite Nat.add_0_r, dependent_pair_eqb.
    unfold seq, adjusted, updateValue_at.
    now destruct (bool_decide (nm ∈ dependent_pair)).
  - rewrite IH. destruct (lookup nm ts) as [[j u]|]; simpl; [|reflexivity].
    now rewrite Nat.add_succ_r.
Qed.

Lemma adjustTunable_found (nm : string) (v : Z) (e : Engine) (i : nat) (t : Tunable) :
  lookup nm (tunables e) = Some (i, t) ->
  adjustTunable nm v e = adjusted i nm v e.
Proof.
  intros Hfind. unfold adjustTunable. now rewrite adjust_from_lookup, Hfind.
Qed.

Lemma adjustTunable_not_found (nm : string) (v : Z) (e : Engine) :
  lookup nm (tunables e) = None ->
  adjustTunable nm v e = put ("No Such Tunable" +:+ endl) e.
Proof.
  intros Hfind. unfold adjustTunable. now rewrite adjust_from_lookup, Hfind.
Qed.

Section Properties.

Variable show_real : double -> string.
Variables ctor_max ctor_step : string -> double -> Z -> double.

Local Notation "'registry0'" := (tunables_init ctor_max ctor_step).
Local Notation "'engine0'" := (startup ctor_max ctor_step).
Local Notation "'history' cs" := (run show_real cs (startup ctor_max ctor_step))
  (at level 10, cs at level 9).

Lemma read_from_lookup (ts : list Tunable) (nm : string) (e : Engine) :
  read_from show_real ts nm e =
  match lookup nm ts with
  | Some (_, t) => put ("value: " +:+ show_real (value t) +:+ endl) e
  | None => put ("No Such Tunable" +:+ endl) e
  end.
Proof.
  induction ts as [|t ts IH]; [reflexivity|].
  rewrite lookup_cons. simpl.
  destruct (String.eqb (name t) nm).
  - one_write.
  - rewrite IH. now destruct (lookup nm ts) as [[j u]|].
Qed.

(** ** The three reports write one block per parameter *)

Lemma outputTunables_writes (e : Engine) :
  outputTunables show_real e
  = put (join (option_line show_real <$> tunables e)) e.
Proof.
  unfold outputTunables. apply for_each_put. unfold option_line. one_write.
Qed.

Lemma readTunables_writes (e : Engine) :
  readTunables show_real e
  = put (join (read_block show_real <$> tunables e)) e.
Proof.
  unfold readTunables. apply for_each_put. unfold read_block. one_write.
Qed.

Lemma outputTunableJSON_writes (e : Engine) :
  outputTunableJSON show_real e
  = put (json_document show_real (tunables e)) e.
Proof.
  unfold outputTunableJSON, seq, std_cout, skip.
  rewrite (for_each_put _ (json_entry show_real)).
  - simpl tunables. rewrite !put_put. unfold json_document.
    now rewrite ?append_assoc.
  - unfold json_entry, json_fields, json_members, json_member. one_write.
Qed.

(** ** What a history of calls preserves *)

Lemma metadata_updateValue (t : Tunable) (v : Z) :
  metadata (updateValue t v) = metadata t.
Proof. reflexivity. Qed.

Lemma metadata_alter (ts : list Tunable) (i : nat) (v : Z) :
  metadata <$> alter (fun t => updateValue t v) i ts = metadata <$> ts.
Proof.
  rewrite (list_fmap_alter metadata _ id)
    by (apply Forall_forall; intros; apply metadata_updateValue).
  now apply list_alter_id.
Qed.

Lemma exec_metadata (c : Call) (e : Engine) :
  metadata <$> tunables (exec show_real c e) = metadata <$> tunables e.
Proof.
  destruct c as [| |nm v|nm|]; unfold exec.
  - now rewrite outputTunables_writes.
  - now rewrite outputTunableJSON_writes.
  - unfold adjustTunable. rewrite adjust_from_lookup.
    destruct (lookup nm (tunables e)) as [[i t]|]; [|reflexivity].
    apply metadata_alter.
  - unfold readTunable. rewrite read_from_lookup.
    now destruct (lookup nm (tunables e)) as [[i t]|].
  - now rewrite readTunables_writes.
Qed.

Lemma run_metadata (cs : list Call) (e : Engine) :
  metadata <$> tunables (run show_real cs e) = metadata <$> tunables e.
Proof.
  revert e. induction cs as [|c cs IH]; intros e; [reflexivity|].
  simpl. unfold seq. now rewrite IH, exec_metadata.
Qed.

Lemma run_names (cs : list Call) (e : Engine) :
  name <$> tunables (run show_real cs e) = name <$> tunables e.
Proof.
  pose proof (f_equal (fmap (fun m => m.1.1.1)) (run_metadata cs e)) as H.
  now rewrite <- !list_fmap_compose in H.
Qed.

Lemma run_divisors (cs : list Call) (e : Engine) :
  divisor <$> tunables (run show_real cs e) = divisor <$> tunables e.
Proof.
  pose proof (f_equal (fmap (fun m => m.1.1.2)) (run_metadata cs e)) as H.
  now rewrite <- !list_fmap_compose in H.
Qed.

Lemma registry0_names_NoDup : NoDup (name <$> registry0).
Proof. apply (bool_decide_unpack _). vm_compute. exact I. Qed.

Lemma history_names_NoDup (cs : list Call) :
  NoDup (name <$> tunables (history cs)).
Proof. rewrite run_names. apply registry0_names_NoDup. Qed.

(** ** Update and read-back *)

(** At divisor 100 the pair is not exact for every integer: 57 over 100
    rounds to a [double] just below 0.57, the product with 100 to one just
    below 57, and the cast gives 56. *)
Lemma rounding_loss_at_57 :
  ~ no_rounding_loss 100 57
  /\ externalValue
       <$> tunables (adjustTunable "LMR_Multiplier" 57 engine0) !! 20%nat
     = Some 56.
Proof.
  split; [|reflexivity].
  intros H. vm_compute in H. discriminate H.
Qed.


(** C2.  For a name that no parameter of the registry carries,
    [adjustTunable] and [readTunable] each return the state they were
    given with the line "No Such Tunable" appended to the output: every
    parameter is as it was and [calculateReductions] has not been
    called. *)
Theorem unknown_name_safety (e : Engine) (nm : string) (v : Z) :
  nm ∉ name <$> tunables e ->
  adjustTunable nm v e
  = {| tunables := tunables e;
       cout := cout e +:+ "No Such Tunable" +:+ endl;
       reductions := reductions e |}
  /\ readTunable show_real nm e
  = {| tunables := tunables e;
       cout := cout e +:+ "No Such Tunable" +:+ endl;
       reductions := reductions e |}.
Proof.
  intros Hnot. apply lookup_absent in Hnot. split.
  - now rewrite adjustTunable_not_found.
  - unfold readTunable. now rewrite read_from_lookup, Hnot.
Qed.

(** C3.  A successful [adjustTunable] calls [calculateReductions] exactly
    once when the name is "LMR_Base" or "LMR_Multiplier", and not at all
    for any other name of the registry. *)
Theorem trigger_gating (e : Engine) (nm : string) (v : Z) :
  nm ∈ name <$> tunables e ->
  (nm ∈ dependent_pair ->
   reductions (adjustTunable nm v e) = S (reductions e))
  /\ (nm ∉ dependent_pair ->
      reductions (adjustTunable nm v e) = reductions e).
Proof.
  intros Hin. destruct (lookup_present _ _ Hin) as (i & t & Hfind & _).
  rewrite (adjustTunable_found _ _ _ _ _ Hfind). simpl. split; intros Hdep.
  - now rewrite bool_decide_eq_true_2.
  - now rewrite bool_decide_eq_false_2.
Qed.

(** C9, as the code has it.  [adjustTunable] writes nothing when the name
    is found; the line "No Such Tunable", written when it is not, is the
    only diagnostic of the update entry point. *)
Theorem adjustTunable_diagnostic (e : Engine) (nm : string) (v : Z) :
  cout (adjustTunable nm v e)
  = if bool_decide (nm ∈ name <$> tunables e) then cout e
    else cout e +:+ "No Such Tunable" +:+ endl.
Proof.
  case_bool_decide as Hin.
  - destruct (lookup_present _ _ Hin) as (i & t & Hfind & _).
    now rewrite (adjustTunable_found _ _ _ _ _ Hfind).
  - now rewrite adjustTunable_not_found by now apply lookup_absent.
Qed.

(** C10.  A successful [adjustTunable] changes the [value] of the first
    parameter carrying the name and nothing else: that parameter keeps its
    name, divisor, max and step, every other position of the registry
    holds what it held, and the registry keeps its length. *)
Theorem adjustTunable_frame (e : Engine) (nm : string) (v : Z) :
  nm ∈ name <$> tunables e ->
  exists i t t',
    lookup nm (tunables e) = Some (i, t)
    /\ tunables (adjustTunable nm v e) !! i = Some t'
    /\ name t' = name t /\ divisor t' = divisor t
    /\ max t' = max t /\ step t' = step t
    /\ (forall j, j <> i ->
        tunables (adjustTunable nm v e) !! j = tunables e !! j)
    /\ length (tunables (adjustTunable nm v e)) = length (tunables e).
Proof.
  intros Hin. destruct (lookup_present _ _ Hin) as (i & t & Hfind & Hi & _).
  exists i, t, (updateValue t v).
  rewrite (adjustTunable_found _ _ _ _ _ Hfind). simpl.
  rewrite list_lookup_alter_eq, Hi, length_alter.
  split; [exact Hfind|]. do 5 (split; [reflexivity|]). split; [|reflexivity].
  intros j Hj. now apply list_lookup_alter_ne.
Qed.

(** C7.  For a name of the registry, [readTunable] writes the line
    "value: " followed by the internal [value] of the first parameter
    carrying the name, not the externally-scaled integer.  At process
    start "LMR_Base" reports 0.8, and 0.95 after an update with 95. *)
Theorem readTunable_reports_value (e : Engine) (nm : string) :
  nm ∈ name <$> tunables e ->
  (exists i t,
     lookup nm (tunables e) = Some (i, t)
     /\ readTunable show_real nm e
        = {| tunables := tunables e;
             cout := cout e +:+ "value: " +:+ show_real (value t) +:+ endl;
             reductions := reductions e |})
  /\ cout (readTunable show_real "LMR_Base" engine0)
     = "value: " +:+ show_real (double_literal 0.8) +:+ endl
  /\ cout (readTunable show_real "LMR_Base"
             (adjustTunable "LMR_Base" 95 engine0))
     = "value: " +:+ show_real (double_literal 0.95) +:+ endl.
Proof.
  intros Hin. split; [|split].
  - destruct (lookup_present _ _ Hin) as (i & t & Hfind & _).
    exists i, t. split; [exact Hfind|].
    unfold readTunable. now rewrite read_from_lookup, Hfind.
  - unfold readTunable. rewrite read_from_lookup.
    change (lookup "LMR_Base" (tunables engine0))
      with (Some (19%nat, lmrBase ctor_max ctor_step)).
    replace (double_literal 0.8) with (value (lmrBase ctor_max ctor_step))
      by (vm_compute; reflexivity).
    reflexivity.
  - unfold readTunable. rewrite read_from_lookup.
    rewrite (adjustTunable_found "LMR_Base" 95 engine0 19
               (lmrBase ctor_max ctor_step) eq_refl).
    change (lookup "LMR_Base" (tunables (adjusted 19 "LMR_Base" 95 engine0)))
      with (Some (19%nat, updateValue (lmrBase ctor_max ctor_step) 95)).
    replace (double_literal 0.95)
      with (value (updateValue (lmrBase ctor_max ctor_step) 95))
      by (vm_compute; reflexivity).
    reflexivity.
Qed.

(** ** The reports *)

(** C4.  [outputTunables] appends to the output, for each parameter in
    registry order, the line
    "option name <NAME> type spin default <EXTERNAL_INT> min 0 max <MAX>"
    with <EXTERNAL_INT> the truncation of [value * divisor], and changes
    nothing else.  For RFP_Multiplier, declared with 84 and divisor 1, the
    default field reads 84. *)
Theorem outputTunables_lines (e : Engine) :
  outputTunables show_real e
  = {| tunables := tunables e;
       cout := cout e +:+ join (option_line show_real <$> tunables e);
       reductions := reductions e |}
  /\ (forall t,
       option_line show_real t
       = "option name " +:+ name t +:+ " type spin default "
         +:+ to_string
               (static_cast_int (value t * real_of_int (divisor t))%double)
         +:+ " min 0 max " +:+ show_real (max t) +:+ endl)
  /\ registry0 !! 4%nat = Some (rfpMultiplier ctor_max ctor_step)
  /\ option_line show_real (rfpMultiplier ctor_max ctor_step)
     = "option name RFP_Multiplier type spin default 84 min 0 max "
       +:+ show_real (max (rfpMultiplier ctor_max ctor_step)) +:+ endl.
Proof.
  split; [apply outputTunables_writes|].
  split; [reflexivity|]. split; reflexivity.
Qed.


(** C6.  After any history of calls, each of the three reports is the
    concatenation of one block per element of the registry, in the order
    of the registry, each block opening with the name of its element; the
    names of the registry are the names it was constructed with, in the
    same order; and every such name is carried by exactly one element.  So
    each report holds exactly one entry per name, in one common order. *)
Theorem reports_one_entry_per_name (cs : list Call) (n : string) :
  n ∈ name <$> registry0 ->
  cout (outputTunables show_real (history cs))
  = cout (history cs)
    +:+ join (option_line show_real <$> tunables (history cs))
  /\ cout (readTunables show_real (history cs))
     = cout (history cs)
       +:+ join (read_block show_real <$> tunables (history cs))
  /\ cout (outputTunableJSON show_real (history cs))
     = cout (history cs)
       +:+ "{" +:+ endl
       +:+ join (json_entry show_real <$> tunables (history cs))
       +:+ "}" +:+ endl
  /\ (forall t, exists rest1 rest2 rest3,
        option_line show_real t = "option name " +:+ name t +:+ rest1
        /\ read_block show_real t = "name: " +:+ name t +:+ rest2
        /\ json_entry show_real t = "   " +:+ quote +:+ name t +:+ rest3)
  /\ name <$> tunables (history cs) = name <$> registry0
  /\ length (filter (fun t => name t = n) (tunables (history cs))) = 1%nat.
Proof.
  intros Hn.
  split; [now rewrite outputTunables_writes|].
  split; [now rewrite readTunables_writes|].
  split; [now rewrite outputTunableJSON_writes|].
  split; [intros t; do 3 eexists; repeat split; reflexivity|].
  split; [apply run_names|].
  change (n ∈ name <$> tunables engine0) in Hn.
  rewrite <- (run_names cs) in Hn.
  pose proof (history_names_NoDup cs) as Hnd.
  induction (tunables (history cs)) as [|t ts IH]; [now apply elem_of_nil in Hn|].
  rewrite fmap_cons in Hn, Hnd. apply NoDup_cons in Hnd as [Hfresh Hnd].
  rewrite filter_cons. apply elem_of_cons in Hn as [->|Hn].
  - rewrite decide_True by reflexivity. simpl. f_equal.
    now rewrite filter_absent_name.
  - rewrite decide_False; [now apply IH|].
    intros Heq. apply Hfresh. now rewrite Heq.
Qed.

(** ** The divisors *)

(** C8, as the code has it.  After any history of calls every parameter of
    the registry has a divisor other than zero: it is one of 1, 10, 100
    and -1. *)
Theorem divisors_never_zero (cs : list Call) :
  Forall (fun t => divisor t <> 0 /\ divisor t ∈ [1; 10; 100; -1])
         (tunables (history cs)).
Proof.
  apply (proj1 (Forall_fmap divisor
                  (fun d => d <> 0 /\ d ∈ [1; 10; 100; -1]) _)).
  rewrite run_divisors.
  apply (bool_decide_unpack _). vm_compute. exact I.
Qed.

End Properties.

(** ** The theorems on the concrete instance *)

Ltac by_decision := apply (bool_decide_unpack _); vm_compute; exact I.


Lemma unknown_name_safety_witness :
  ("NOT_A_REAL_NAME" ∉ name <$> tunables sample_startup)
  /\ adjustTunable "NOT_A_REAL_NAME" 5 sample_startup
     = {| tunables := tunables sample_startup;
          cout := "No Such Tunable" +:+ endl;
          reductions := 0 |}
  /\ readTunable show_binary "NOT_A_REAL_NAME" sample_startup
     = {| tunables := tunables sample_startup;
          cout := "No Such Tunable" +:+ endl;
          reductions := 0 |}.
Proof.
  assert (H : "NOT_A_REAL_NAME" ∉ name <$> tunables sample_startup)
    by by_decision.
  split; [exact H|].
  exact (unknown_name_safety show_binary sample_startup "NOT_A_REAL_NAME" 5 H).
Defined.

Lemma trigger_gating_witness :
  "LMR_Multiplier" ∈ name <$> tunables sample_startup
  /\ ("LMR_Multiplier" ∈ dependent_pair ->
      reductions (adjustTunable "LMR_Multiplier" 60 sample_startup) = 1%nat)
  /\ ("LMR_Multiplier" ∉ dependent_pair ->
      reductions (adjustTunable "LMR_Multiplier" 60 sample_startup) = 0%nat).
Proof.
  assert (H : "LMR_Multiplier" ∈ name <$> tunables sample_startup)
    by by_decision.
  split; [exact H|].
  exact (trigger_gating sample_startup "LMR_Multiplier" 60 H).
Defined.

Lemma adjustTunable_frame_witness :
  "LMR_Base" ∈ name <$> tunables sample_startup
  /\ exists i t t',
       lookup "LMR_Base" (tunables sample_startup) = Some (i, t)
       /\ tunables (adjustTunable "LMR_Base" 95 sample_startup) !! i = Some t'
       /\ name t' = name t /\ divisor t' = divisor t
       /\ max t' = max t /\ step t' = step t
       /\ (forall j, j <> i ->
           tunables (adjustTunable "LMR_Base" 95 sample_startup) !! j
           = tunables sample_startup !! j)
       /\ length (tunables (adjustTunable "LMR_Base" 95 sample_startup))
          = length (tunables sample_startup).
Proof.
  assert (H : "LMR_Base" ∈ name <$> tunables sample_startup) by by_decision.
  split; [exact H|].
  exact (adjustTunable_frame sample_startup "LMR_Base" 95 H).
Defined.

Lemma readTunable_reports_value_witness :
  "LMR_Base" ∈ name <$> tunables sample_startup
  /\ cout (readTunable show_binary "LMR_Base" sample_startup)
     = "value: " +:+ show_binary (double_literal 0.8) +:+ endl.
Proof.
  assert (H : "LMR_Base" ∈ name <$> tunables sample_startup) by by_decision.
  split; [exact H|].
  exact (proj1 (proj2 (readTunable_reports_value show_binary
                         sample_max sample_step sample_startup "LMR_Base" H))).
Defined.

Lemma reports_one_entry_per_name_witness :
  "LMR_Base" ∈ name <$> tunables_init sample_max sample_step
  /\ length (filter (fun t => name t = "LMR_Base")
               (tunables (run show_binary
                            [CallAdjustTunable "LMR_Base" 95; CallOutputTunables]
                            sample_startup))) = 1%nat.
Proof.
  assert (H : "LMR_Base" ∈ name <$> tunables_init sample_max sample_step)
    by by_decision.
  split; [exact H|].
  exact (proj2 (proj2 (proj2 (proj2 (proj2
    (reports_one_entry_per_name show_binary sample_max sample_step
       [CallAdjustTunable "LMR_Base" 95; CallOutputTunables] "LMR_Base" H)))))).
Defined.

(** ** Where the code departs from the wording *)

(** C8: the divisor of SPR_CaptureThreshold is -1, so not every divisor of
    the registry is positive. *)
Lemma divisor_positive_counterexample :
  ~ (forall t, t ∈ tunables sample_startup -> 0 < divisor t).
Proof.
  intros Hpos.
  assert (Hin : sprCaptureThreshold sample_max sample_step ∈ tunables sample_startup).
  { apply (list_elem_of_lookup_2 _ 12). reflexivity. }
  specialize (Hpos _ Hin). simpl in Hpos. lia.
Qed.

(** C9: at process start the update of LMR_Base to 95 succeeds, and the
    output is as empty as before. *)
Lemma success_diagnostic_counterexample :
  "LMR_Base" ∈ name <$> tunables sample_startup
  /\ cout sample_startup = ""
  /\ cout (adjustTunable "LMR_Base" 95 sample_startup) = "".
Proof.
  split; [by_decision|]. split; reflexivity.
Qed.

(** ** Lookups in an updated registry *)

Lemma lookup_alter (nm : string) (v : Z) (ts : list Tunable) :
  forall i : nat,
  lookup nm (alter (fun t => updateValue t v) i ts)
  = (fun p : nat * Tunable =>
       (p.1, if decide (p.1 = i) then updateValue p.2 v else p.2))
    <$> lookup nm ts.
Proof.
  induction ts as [|t ts IH]; intros i; [reflexivity|].
  destruct i as [|i].
  - change (alter (fun t => updateValue t v) 0%nat (t :: ts))
      with (updateValue t v :: ts).
    rewrite !lookup_cons. simpl name.
    destruct (String.eqb (name t) nm); [reflexivity|].
    now destruct (lookup nm ts) as [[j u]|].
  - change (alter (fun t => updateValue t v) (S i) (t :: ts))
      with (t :: alter (fun t => updateValue t v) i ts).
    rewrite !lookup_cons. destruct (String.eqb (name t) nm); [reflexivity|].
    rewrite IH. destruct (lookup nm ts) as [[j u]|]; [|reflexivity].
    simpl. do 2 f_equal. repeat case_decide; congruence || lia.
Qed.

Lemma lookup_name (nm : string) (ts : list Tunable) (i : nat) (t : Tunable) :
  lookup nm ts = Some (i, t) -> ts !! i = Some t /\ name t = nm.
Proof. intros H. apply list_find_Some in H as (Hi & Hn & _). auto. Qed.

Lemma lookup_other_index (n1 n2 : string) (ts : list Tunable)
    (i1 i2 : nat) (t1 t2 : Tunable) :
  n1 <> n2 -> lookup n1 ts = Some (i1, t1) -> lookup n2 ts = Some (i2, t2) ->
  i1 <> i2.
Proof.
  intros Hne H1 H2 ->.
  apply lookup_name in H1 as [H1 <-]. apply lookup_name in H2 as [H2 <-].
  congruence.
Qed.


Lemma lookup_adjust_other (n m : string) (v : Z) (e : Engine) :
  n <> m ->
  lookup n (tunables (adjustTunable m v e)) = lookup n (tunables e).
Proof.
  intros Hne. unfold adjustTunable. rewrite adjust_from_lookup.
  destruct (lookup m (tunables e)) as [[i t]|] eqn:Hm; [|reflexivity].
  simpl tunables. rewrite lookup_alter.
  destruct (lookup n (tunables e)) as [[j u]|] eqn:Hn; [|reflexivity].
  simpl. rewrite decide_False; [reflexivity|].
  exact (lookup_other_index _ _ _ _ _ _ _ Hne Hn Hm).
Qed.

Lemma lookup_adjust_same (nm : string) (v : Z) (e : Engine) (i : nat) (t : Tunable) :
  lookup nm (tunables e) = Some (i, t) ->
  lookup nm (tunables (adjustTunable nm v e)) = Some (i, updateValue t v).
Proof.
  intros Hfind. rewrite (adjustTunable_found _ _ _ _ _ Hfind).
  simpl tunables. rewrite lookup_alter, Hfind. simpl.
  now rewrite decide_True.
Qed.

Section Compositions.

Variable show_real : double -> string.
Variables ctor_max ctor_step : string -> double -> Z -> double.

Local Notation "'registry0'" := (tunables_init ctor_max ctor_step).
Local Notation "'engine0'" := (startup ctor_max ctor_step).
Local Notation "'history' cs" := (run show_real cs (startup ctor_max ctor_step))
  (at level 10, cs at level 9).

(** ** Updates and reads, composed *)

(** X1.  In every state the program can reach, an update of a parameter
    followed by a read of the same name reports the new internal value,
    the [double] quotient of the integer given by the parameter's
    divisor. *)
Theorem update_then_read (cs : list Call) (i : nat) (t : Tunable) (x : Z) :
  tunables (history cs) !! i = Some t ->
  cout (readTunable show_real (name t)
          (adjustTunable (name t) x (history cs)))
  = cout (history cs) +:+ "value: "
    +:+ show_real (real_of_int x / real_of_int (divisor t))%double +:+ endl.
Proof.
  intros Hi.
  pose proof (lookup_own_name _ _ _
                (history_names_NoDup show_real ctor_max ctor_step cs) Hi)
    as Hfind.
  unfold readTunable. rewrite read_from_lookup.
  rewrite (lookup_adjust_same _ x _ _ _ Hfind).
  now rewrite (adjustTunable_found _ _ _ _ _ Hfind).
Qed.

(** X2.  An update under one name does not change what a read of another
    name writes. *)
Theorem read_other_unaffected (e : Engine) (nm nm' : string) (v : Z) :
  nm <> nm' ->
  exists s,
    readTunable show_real nm' e = put s e
    /\ readTunable show_real nm' (adjustTunable nm v e)
       = put s (adjustTunable nm v e).
Proof.
  intros Hne. unfold readTunable. rewrite !read_from_lookup.
  rewrite lookup_adjust_other by congruence.
  destruct (lookup nm' (tunables e)) as [[j u]|]; eexists; split; reflexivity.
Qed.

(** X3.  Of two updates in a row under one name only the second shows in
    the registry. *)
Theorem last_write_wins (e : Engine) (nm : string) (v1 v2 : Z) :
  tunables (adjustTunable nm v2 (adjustTunable nm v1 e))
  = tunables (adjustTunable nm v2 e).
Proof.
  destruct (lookup nm (tunables e)) as [[i t]|] eqn:Hfind.
  - rewrite (adjustTunable_found _ _ _ _ _ (lookup_adjust_same _ v1 _ _ _ Hfind)).
    rewrite !(adjustTunable_found _ _ _ _ _ Hfind). simpl.
    rewrite list_alter_alter_eq. now apply list_alter_ext.
  - rewrite (adjustTunable_not_found nm v1 e Hfind).
    now rewrite !adjustTunable_not_found.
Qed.

(** X4.  Updates under two different names commute: either order leaves
    the same registry, the same output and the same number of calls to
    [calculateReductions]. *)
Theorem updates_commute (e : Engine) (n1 n2 : string) (v1 v2 : Z) :
  n1 <> n2 ->
  adjustTunable n1 v1 (adjustTunable n2 v2 e)
  = adjustTunable n2 v2 (adjustTunable n1 v1 e).
Proof.
  intros Hne.
  unfold adjustTunable at 1 3. rewrite !adjust_from_lookup.
  rewrite (lookup_adjust_other n1 n2) by exact Hne.
  rewrite (lookup_adjust_other n2 n1) by congruence.
  unfold adjustTunable. rewrite !adjust_from_lookup.
  destruct (lookup n1 (tunables e)) as [[i1 t1]|] eqn:H1;
    destruct (lookup n2 (tunables e)) as [[i2 t2]|] eqn:H2; try reflexivity.
  unfold adjusted. simpl. f_equal.
  - apply list_alter_alter_ne. exact (lookup_other_index _ _ _ _ _ _ _ Hne H1 H2).
  - now repeat case_bool_decide.
Qed.

(** ** Histories *)

Lemma exec_names (c : Call) (e : Engine) :
  name <$> tunables (exec show_real c e) = name <$> tunables e.
Proof.
  pose proof (f_equal (fmap (fun m => m.1.1.1)) (exec_metadata show_real c e)) as H.
  now rewrite <- !list_fmap_compose in H.
Qed.

Lemma exec_report (c : Call) (e : Engine) :
  is_report c -> exists s, exec show_real c e = put s e.
Proof.
  destruct c as [| |nm v|nm|]; unfold exec; intros Hc; [| |destruct Hc| |].
  - eexists. apply outputTunables_writes.
  - eexists. apply outputTunableJSON_writes.
  - unfold readTunable. rewrite read_from_lookup.
    destruct (lookup nm (tunables e)) as [[i t]|]; eexists; reflexivity.
  - eexists. apply readTunables_writes.
Qed.

(** A reporting call in the goal becomes the one write it amounts to. *)
Ltac report_call :=
  match goal with
  | |- context [exec ?sh ?c ?e] =>
      let s := fresh "s" in destruct (exec_report c e I) as [s ->]
  end.

Lemma exec_lookup (c : Call) (e : Engine) (i : nat) (t : Tunable) :
  NoDup (name <$> tunables e) ->
  tunables e !! i = Some t ->
  tunables (exec show_real c e) !! i
  = Some match c with
         | CallAdjustTunable nm v =>
             if String.eqb nm (name t) then updateValue t v else t
         | _ => t
         end.
Proof.
  intros Hnd Hi.
  destruct c as [| |nm v|nm|]; try (report_call; exact Hi).
  unfold exec. destruct (String.eqb_spec nm (name t)) as [->|Hne].
  - rewrite (adjustTunable_found _ _ _ _ _ (lookup_own_name _ _ _ Hnd Hi)).
    simpl. now rewrite list_lookup_alter_eq, Hi.
  - unfold adjustTunable. rewrite adjust_from_lookup.
    destruct (lookup nm (tunables e)) as [[j u]|] eqn:Hfind; [|exact Hi].
    simpl. rewrite list_lookup_alter_ne; [exact Hi|].
    apply lookup_name in Hfind as [Hj <-]. congruence.
Qed.

Lemma run_last_update (cs : list Call) :
  forall (e : Engine) (i : nat) (t : Tunable),
  NoDup (name <$> tunables e) ->
  tunables e !! i = Some t ->
  tunables (run show_real cs e) !! i
  = Some (from_option (updateValue t) t (last_update (name t) cs)).
Proof.
  induction cs as [|c cs IH]; intros e i t Hnd Hi; [exact Hi|].
  simpl run. unfold seq.
  assert (Hnd' : NoDup (name <$> tunables (exec show_real c e)))
    by now rewrite exec_names.
  rewrite (IH _ i _ Hnd' (exec_lookup c e i t Hnd Hi)). f_equal.
  simpl last_update.
  destruct c as [| |nm v|nm|];
    try (now destruct (last_update (name t) cs)).
  destruct (String.eqb nm (name t)); simpl name;
    now destruct (last_update (name t) cs).
Qed.

(** X5.  The registry is a last-write-wins store.  After any history of
    calls, the parameter at each position is the one declared there when
    the history has no update under its name, and otherwise that
    parameter with the value set by the last such update. *)
Theorem history_keeps_last_update (cs : list Call) (i : nat) (t : Tunable) :
  registry0 !! i = Some t ->
  tunables (history cs) !! i
  = Some (from_option (updateValue t) t (last_update (name t) cs)).
Proof.
  intros Hi. apply run_last_update; [|exact Hi].
  apply registry0_names_NoDup.
Qed.

Lemma exec_reductions (c : Call) (e : Engine) :
  dependent_pair ⊆ name <$> tunables e ->
  reductions (exec show_real c e)
  = (reductions e + (if dependent_update c then 1 else 0))%nat.
Proof.
  intros Hdep.
  destruct c as [| |nm v|nm|]; try (report_call; simpl; lia).
  unfold exec, adjustTunable. rewrite adjust_from_lookup. simpl dependent_update.
  destruct (lookup nm (tunables e)) as [[i t]|] eqn:Hfind.
  - simpl. case_bool_decide; lia.
  - simpl. rewrite bool_decide_eq_false_2; [lia|].
    intros Hin. apply Hdep in Hin.
    destruct (lookup_present _ _ Hin) as (j & u & Hsome & _). congruence.
Qed.

Lemma run_reductions (cs : list Call) :
  forall e : Engine,
  dependent_pair ⊆ name <$> tunables e ->
  reductions (run show_real cs e)
  = (reductions e + length (filter (fun c => dependent_update c = true) cs))%nat.
Proof.
  induction cs as [|c cs IH]; intros e Hdep; simpl run.
  - unfold skip. simpl. lia.
  - unfold seq. rewrite IH by now rewrite exec_names.
    rewrite exec_reductions by exact Hdep. rewrite filter_cons.
    destruct (dependent_update c).
    + rewrite decide_True by reflexivity. simpl. lia.
    + rewrite decide_False by discriminate. lia.
Qed.

(** X6.  After any history of calls, [calculateReductions] has been called
    once for each update under "LMR_Base" or "LMR_Multiplier" in the
    history, whatever the value given, and never otherwise. *)
Theorem history_reductions (cs : list Call) :
  reductions (history cs)
  = length (filter (fun c => dependent_update c = true) cs).
Proof.
  rewrite run_reductions; [reflexivity|].
  intros nm Hnm. apply (bool_decide_unpack _).
  unfold dependent_pair in Hnm.
  rewrite !elem_of_cons, elem_of_nil in Hnm.
  destruct Hnm as [->|[->|[]]]; vm_compute; exact I.
Qed.

(** X7.  No call adds, removes or reorders a parameter, or changes a name,
    a divisor, a max or a step: after any history the registry has its
    thirty-five parameters with the metadata they were declared with. *)
Theorem history_keeps_registry_shape (cs : list Call) :
  metadata <$> tunables (history cs) = metadata <$> registry0
  /\ length (tunables (history cs)) = 35%nat.
Proof.
  pose proof (run_metadata show_real cs engine0) as Hmeta.
  split; [exact Hmeta|].
  apply (f_equal length) in Hmeta. now rewrite !length_fmap in Hmeta.
Qed.

(** X8.  A reporting call writes a text that the registry alone
    determines, and changes nothing but the output; so the same report
    made twice in a row writes the same text twice. *)
Theorem report_depends_on_registry_only (c : Call) (e : Engine) :
  is_report c ->
  exists s,
    (forall e', tunables e' = tunables e -> exec show_real c e' = put s e')
    /\ exec show_real c (exec show_real c e) = put s (put s e).
Proof.
  intros Hc.
  assert (Hs : exists s, forall e', tunables e' = tunables e ->
                                    exec show_real c e' = put s e').
  { destruct c as [| |nm v|nm|]; unfold exec; [| |destruct Hc| |].
    - exists (join (option_line show_real <$> tunables e)).
      intros e' He'. now rewrite outputTunables_writes, He'.
    - exists (json_document show_real (tunables e)).
      intros e' He'. now rewrite outputTunableJSON_writes, He'.
    - destruct (lookup nm (tunables e)) as [[i t]|] eqn:Hfind; eexists;
        intros e' He'; unfold readTunable;
        rewrite read_from_lookup, He', Hfind; reflexivity.
    - exists (join (read_block show_real <$> tunables e)).
      intros e' He'. now rewrite readTunables_writes, He'. }
  destruct Hs as [s Hs]. exists s. split; [exact Hs|].
  rewrite (Hs e eq_refl). now apply Hs.
Qed.

(** ** Names that were never declared *)

(** X10.  No call creates a parameter: a name the registry was not
    declared with is still unknown after any history of calls, and an
    update under it only writes "No Such Tunable". *)
Theorem undeclared_name_stays_unknown (cs : list Call) (nm : string) (v : Z) :
  nm ∉ name <$> registry0 ->
  adjustTunable nm v (history cs)
  = {| tunables := tunables (history cs);
       cout := cout (history cs) +:+ "No Such Tunable" +:+ endl;
       reductions := reductions (history cs) |}.
Proof.
  intros Hnot. apply adjustTunable_not_found, lookup_absent.
  now rewrite run_names.
Qed.

(** ** The full listing *)

(** X11.  [readTunables] appends to the output, for each parameter in
    registry order, six lines: the name, the internal value, "min: 0",
    the max, the divisor and the step; it changes nothing else. *)
Theorem readTunables_listing (e : Engine) :
  readTunables show_real e
  = {| tunables := tunables e;
       cout := cout e +:+ join (read_block show_real <$> tunables e);
       reductions := reductions e |}
  /\ (forall t,
       read_block show_real t
       = "name: " +:+ name t +:+ endl
         +:+ "value: " +:+ show_real (value t) +:+ endl
         +:+ "min: 0" +:+ endl
         +:+ "max: " +:+ show_real (max t) +:+ endl
         +:+ "divisor: " +:+ to_string (divisor t) +:+ endl
         +:+ "step: " +:+ show_real (step t) +:+ endl).
Proof.
  split; [apply readTunables_writes|]. intros t. reflexivity.
Qed.

End Compositions.

(** ** The composed properties on the concrete instance *)

Lemma update_then_read_witness :
  tunables (run show_binary [CallReadTunables] sample_startup) !! 1%nat
  = Some (aspDeltaMultiplier sample_max sample_step)
  /\ cout (readTunable show_binary "ASP_DeltaMultiplier"
            (adjustTunable "ASP_DeltaMultiplier" 25
               (run show_binary [CallReadTunables] sample_startup)))
     = cout (run show_binary [CallReadTunables] sample_startup)
       +:+ "value: "
       +:+ show_binary (real_of_int 25 / real_of_int 10)%double +:+ endl.
Proof.
  split; [reflexivity|].
  exact (update_then_read show_binary sample_max sample_step
           [CallReadTunables] 1
           (aspDeltaMultiplier sample_max sample_step) 25 eq_refl).
Defined.

Lemma read_other_unaffected_witness :
  "LMR_Base" <> "LMR_Multiplier"
  /\ exists s,
       readTunable show_binary "LMR_Multiplier" sample_startup
       = put s sample_startup
       /\ readTunable show_binary "LMR_Multiplier"
            (adjustTunable "LMR_Base" 95 sample_startup)
          = put s (adjustTunable "LMR_Base" 95 sample_startup).
Proof.
  assert (H : "LMR_Base" <> "LMR_Multiplier") by by_decision.
  split; [exact H|].
  exact (read_other_unaffected show_binary sample_startup
           "LMR_Base" "LMR_Multiplier" 95 H).
Defined.

Lemma updates_commute_witness :
  "LMR_Base" <> "SPR_QuietThreshold"
  /\ adjustTunable "LMR_Base" 95
       (adjustTunable "SPR_QuietThreshold" 40 sample_startup)
     = adjustTunable "SPR_QuietThreshold" 40
         (adjustTunable "LMR_Base" 95 sample_startup).
Proof.
  assert (H : "LMR_Base" <> "SPR_QuietThreshold") by by_decision.
  split; [exact H|].
  exact (updates_commute sample_startup "LMR_Base" "SPR_QuietThreshold" 95 40 H).
Defined.

Lemma history_keeps_last_update_witness :
  tunables_init sample_max sample_step !! 19%nat
  = Some (lmrBase sample_max sample_step)
  /\ tunables (run show_binary
                 [CallAdjustTunable "LMR_Base" 95; CallReadTunables;
                  CallAdjustTunable "FP_Base" 300;
                  CallAdjustTunable "LMR_Base" 70]
                 sample_startup) !! 19%nat
     = Some (updateValue (lmrBase sample_max sample_step) 70).
Proof.
  split; [reflexivity|].
  exact (history_keeps_last_update show_binary sample_max sample_step
           [CallAdjustTunable "LMR_Base" 95; CallReadTunables;
            CallAdjustTunable "FP_Base" 300;
            CallAdjustTunable "LMR_Base" 70]
           19 (lmrBase sample_max sample_step) eq_refl).
Defined.

Lemma report_depends_on_registry_only_witness :
  is_report CallReadTunables
  /\ exists s,
       (forall e', tunables e' = tunables sample_startup ->
                   exec show_binary CallReadTunables e' = put s e')
       /\ exec show_binary CallReadTunables
            (exec show_binary CallReadTunables sample_startup)
          = put s (put s sample_startup).
Proof.
  split; [exact I|].
  exact (report_depends_on_registry_only show_binary
           CallReadTunables sample_startup I).
Defined.

Lemma undeclared_name_stays_unknown_witness :
  ("LMR_base" ∉ name <$> tunables_init sample_max sample_step)
  /\ adjustTunable "LMR_base" 95
       (run show_binary [CallAdjustTunable "LMR_Base" 95] sample_startup)
     = {| tunables :=
            tunables (run show_binary [CallAdjustTunable "LMR_Base" 95]
                          sample_startup);
          cout :=
            cout (run show_binary [CallAdjustTunable "LMR_Base" 95]
                      sample_startup)
            +:+ "No Such Tunable" +:+ endl;
          reductions :=
            reductions (run show_binary [CallAdjustTunable "LMR_Base" 95]
                            sample_startup) |}.
Proof.
  assert (H : "LMR_base" ∉ name <$> tunables_init sample_max sample_step)
    by by_decision.
  split; [exact H|].
  exact (undeclared_name_stays_unknown show_binary sample_max sample_step
           [CallAdjustTunable "LMR_Base" 95] "LMR_base" 95 H).
Defined.
